(** * Package nfc (dev/nfc/nfc.go): constants, error codes, error strings

    A shallow embedding of the Go package [nfc]: its constant groups, the
    [Error] type with its [Error()] method, the [errorMessages] table and
    the package-level variable [theContext].

    Go's [int] is taken as the 64-bit signed integer of the usual targets;
    values are carried as [Z] and the machine range is the predicate
    [is_int].  Every wrap-around of the formatting code is written out. *)

From Equations Require Import Equations.
From stdpp Require Import gmap strings list sorting.
From Stdlib Require Import ZArith Ascii String Lia.
From Stdlib Require Import Decimal DecimalFacts DecimalPos DecimalN DecimalZ.
From Stdlib Require Import DecimalString.

Local Open Scope string_scope.
Local Open Scope Z_scope.

(** ** Machine integers *)

Definition int_min : Z := - 2 ^ 63.
Definition int_max : Z := 2 ^ 63 - 1.

(** The values of Go's [int]. *)
Definition is_int (v : Z) : Prop := int_min <= v <= int_max.

(** The conversion [uint64(v)]. *)
Definition uint64 (v : Z) : Z := v mod 2 ^ 64.

(** The conversion [int64(u)] of an unsigned 64-bit value. *)
Definition int64 (u : Z) : Z :=
  let w := u mod 2 ^ 64 in if w <? 2 ^ 63 then w else w - 2 ^ 64.

(** ** Constants *)

(** [const BUFSIZE_CONNSTRING = 1024] *)
Definition BUFSIZE_CONNSTRING : Z := 1024.

(** A constant group.  In a [const ( ... )] block the predeclared [iota] is
    the index of the line, and a line without an expression repeats the
    expression of the line before it. *)
Module Properties.
(** [TIMEOUT_COMMAND = iota], the fourteen lines after it repeat [iota]. *)
Definition expr (iota : Z) : Z := iota.

Definition TIMEOUT_COMMAND : Z := expr 0.
Definition TIMEOUT_ATR : Z := expr 1.
Definition TIMEOUT_COM : Z := expr 2.
Definition HANDLE_CRC : Z := expr 3.
Definition HANDLE_PARITY : Z := expr 4.
Definition ACTIVATE_FIELD : Z := expr 5.
Definition ACTIVATE_CRYPTO1 : Z := expr 6.
Definition INFINITE_SELECT : Z := expr 7.
Definition ACCEPT_INVALID_FRAMES : Z := expr 8.
Definition ACCEPT_MULTIPLE_FRAMES : Z := expr 9.
Definition AUTO_ISO14443_4 : Z := expr 10.
Definition EASY_FRAMING : Z := expr 11.
Definition FORCE_ISO14443_A : Z := expr 12.
Definition FORCE_ISO14443_B : Z := expr 13.
Definition FORCE_SPEED_106 : Z := expr 14.

(** The group in the order of declaration. *)
Definition declared : list Z :=
  [ TIMEOUT_COMMAND; TIMEOUT_ATR; TIMEOUT_COM; HANDLE_CRC; HANDLE_PARITY;
    ACTIVATE_FIELD; ACTIVATE_CRYPTO1; INFINITE_SELECT;
    ACCEPT_INVALID_FRAMES; ACCEPT_MULTIPLE_FRAMES; AUTO_ISO14443_4;
    EASY_FRAMING; FORCE_ISO14443_A; FORCE_ISO14443_B; FORCE_SPEED_106 ].
End Properties.

Module ModulationTypes.
(** [ISO14443A = iota + 1], the seven lines after it repeat [iota + 1]. *)
Definition expr (iota : Z) : Z := iota + 1.

Definition ISO14443A : Z := expr 0.
Definition JEWEL : Z := expr 1.
Definition ISO14443B : Z := expr 2.
Definition ISO14443BI : Z := expr 3.
Definition ISO14443B2SR : Z := expr 4.
Definition ISO14443B2CT : Z := expr 5.
Definition FELICA : Z := expr 6.
Definition DEP : Z := expr 7.

Definition declared : list Z :=
  [ ISO14443A; JEWEL; ISO14443B; ISO14443BI; ISO14443B2SR; ISO14443B2CT;
    FELICA; DEP ].
End ModulationTypes.

Module BaudRates.
(** [NBR_106 = iota + 1], the three lines after it repeat [iota + 1]. *)
Definition expr (iota : Z) : Z := iota + 1.

Definition NBR_106 : Z := expr 0.
Definition NBR_212 : Z := expr 1.
Definition NBR_424 : Z := expr 2.
Definition NBR_847 : Z := expr 3.

Definition declared : list Z := [ NBR_106; NBR_212; NBR_424; NBR_847 ].
End BaudRates.

Module Modes.
Definition expr (iota : Z) : Z := iota.

Definition TARGET : Z := expr 0.
Definition INITIATOR : Z := expr 1.
End Modes.

(** [type Modulation struct { Type int; BaudRate int }] *)
Record Modulation := { Type_ : Z; BaudRate : Z }.

(** ** Error codes *)

(** [type Error int]; the conversion [int(e)] is the identity. *)
Abbreviation Error := Z (only parsing).

Definition SUCCESS : Z := 0.
Definition EIO : Z := -1.
Definition EINVARG : Z := -2.
Definition EDEVNOTSUPP : Z := -3.
Definition ENOTSUCHDEV : Z := -4.
Definition EOVFLOW : Z := -5.
Definition ETIMEOUT : Z := -6.
Definition EOPABORTED : Z := -7.
Definition ENOTIMPL : Z := -8.
Definition ETGRELEASED : Z := -10.
Definition ERFTRANS : Z := -20.
Definition EMFCAUTHFAIL : Z := -30.
Definition ESOFT : Z := -80.
Definition ECHIP : Z := -90.

(** The error-code block in the order of declaration. *)
Definition error_codes : list Z :=
  [ SUCCESS; EIO; EINVARG; EDEVNOTSUPP; ENOTSUCHDEV; EOVFLOW; ETIMEOUT;
    EOPABORTED; ENOTIMPL; ETGRELEASED; ERFTRANS; EMFCAUTHFAIL; ESOFT; ECHIP ].

(** The thirteen codes of the block other than [SUCCESS]. *)
Definition failure_codes : list Z :=
  [ EIO; EINVARG; EDEVNOTSUPP; ENOTSUCHDEV; EOVFLOW; ETIMEOUT; EOPABORTED;
    ENOTIMPL; ETGRELEASED; ERFTRANS; EMFCAUTHFAIL; ESOFT; ECHIP ].

(** The composite literal of [errorMessages], entry by entry as written. *)
Definition errorMessages_literal : list (Z * string) :=
  [ (SUCCESS,      "Success");
    (EIO,          "Input / Output Error");
    (EINVARG,      "Invalid argument(s)");
    (EDEVNOTSUPP,  "Not Supported by Device");
    (ENOTSUCHDEV,  "No Such Device");
    (EOVFLOW,      "Buffer Overflow");
    (ETIMEOUT,     "Timeout");
    (EOPABORTED,   "Operation Aborted");
    (ENOTIMPL,     "Not (yet) Implemented");
    (ETGRELEASED,  "Target Released");
    (EMFCAUTHFAIL, "Mifare Authentication Failed");
    (ERFTRANS,     "RF Transmission Error");
    (ECHIP,        "Device's Internal Chip Error") ].

(** ** Formatting: [fmt.Sprintf("Error %d", v)]

    The verb [%d] on an [int] goes through the integer formatter of package
    [fmt] in base 10: the value is passed as [uint64(v)], a negative value
    is negated in 64-bit unsigned arithmetic, the digits are written into a
    buffer from its end by repeated division by ten, and the sign is put in
    front last. *)

(** [byte('0' + d)] *)
Definition digit_byte (d : Z) : ascii := ascii_of_N (Z.to_N (48 + d)).

(** The digit table of the formatter and the index expression [digits[u]]
    (an index out of range panics in Go; the loop below only indexes with
    [u < 10]). *)
Definition ldigits : string := "0123456789abcdefx".

Definition digits_at (digits : string) (u : Z) : ascii :=
  default "000"%char (String.get (Z.to_nat u) digits).

(** The digit loop; [buf] is the part of the buffer already written.
<<
    for u >= 10 { next := u / 10; buf[i] = byte('0' + u - next*10); u = next }
    buf[i] = digits[u]
>> *)
Equations? fmt_digits (u : Z) (buf : string) : string
  by wf (Z.to_nat (Z.log2 u)) lt :=
  fmt_digits u buf with decide (10 <= u) => {
    | left _ :=
        let next := u / 10 in
        fmt_digits next (String (digit_byte (u - next * 10)) buf);
    | right _ := String (digits_at ldigits u) buf }.
Proof.
  apply Z2Nat.inj_lt; [apply Z.log2_nonneg .. |].
  apply Z.le_lt_trans with (Z.log2 (u / 2)).
  - apply Z.log2_le_mono, Z.div_le_compat_l; lia.
  - rewrite <- Z.div2_div, Z.div2_spec, Z.log2_shiftr by lia.
    pose proof (Z.log2_pos u). lia.
Qed.

Definition fmtInteger (u : Z) (isSigned : bool) : string :=
  let negative := isSigned && (int64 u <? 0) in
  let u := if negative then (- u) mod 2 ^ 64 else u in
  let buf := fmt_digits u "" in
  if negative then String "-" buf else buf.

(** [fmt.Sprintf("Error %d", v)] for [v] of type [int]. *)
Definition Sprintf_Error_d (v : Z) : string :=
  "Error " +:+ fmtInteger (uint64 v) true.

(** ** Package state

    The package has two package-level variables, [errorMessages] and
    [theContext].  Both are ordinary Go variables: a map is a mutable
    object and a pointer can be reassigned, so the state they hold is
    threaded through every call. *)

(** Addresses of heap cells. *)
Abbreviation loc := positive (only parsing).

Section Package.

(** [type context struct { ... }] is declared in another file of the
    package; the type and its zero value [context{}] are parameters. *)
Variable context : Type.
Variable context_zero : context.

Record pkg : Type := Pkg {
  errorMessages : gmap Z string;   (* var errorMessages = map[int]string{...} *)
  heap : gmap loc context;         (* the cells that hold a context *)
  theContext : loc;                (* var theContext *context *)
}.

(** A map composite literal: an empty map, then one entry after the other. *)
Definition map_literal (l : list (Z * string)) : gmap Z string :=
  foldl (λ m kv, <[kv.1 := kv.2]> m) ∅ l.

(** [&context{}]: a new cell holding the zero value. *)
Definition new_context (h : gmap loc context) : loc * gmap loc context :=
  let l := fresh (dom h) in (l, <[l := context_zero]> h).

(** Package initialisation: each variable initialiser runs once, in the
    order of declaration. *)
Definition pkg_init : pkg :=
  let m := map_literal errorMessages_literal in
  let '(l, h) := new_context ∅ in
  {| errorMessages := m; heap := h; theContext := l |}.

(** *** Calls into the package: state passing *)

Definition M (A : Type) : Type := pkg → A * pkg.

Definition ret {A} (a : A) : M A := λ σ, (a, σ).
Definition bind {A B} (c : M A) (k : A → M B) : M B :=
  λ σ, let '(a, σ') := c σ in k a σ'.

Local Notation "'do' x <- c ; k" := (bind c (λ x, k))
  (at level 10, x name, c at level 100, k at level 200).

(** The index expression [errorMessages[k]]: a read of the map, whose
    result is the zero value [""] when the key is absent. *)
Definition index_errorMessages (k : Z) : M string :=
  λ σ, (default "" (errorMessages σ !! k), σ).

(** [func (e Error) Error() string] *)
Definition Error_Error (e : Error) : M string :=
  do m <- index_errorMessages e;
  if String.eqb m "" then
    ret (Sprintf_Error_d e)
  else
    do m' <- index_errorMessages e;
    ret m'.

(** Modelled from the spec: the acquisition of the library context, which
    the source file does not define.  The spec speaks of a process-wide
    handle that every device-open goes through and of "two sequential
    acquisitions" returning "a handle to the same underlying state"; an
    acquisition reads the package-level handle. *)
Definition acquire_context : M loc :=
  λ σ, (theContext σ, σ).

(** The calls a client can make, and what they give back. *)
Inductive call : Type :=
| CallError (e : Error)
| CallAcquire.

Inductive result : Type :=
| RString (s : string)
| RContext (l : loc).

Definition exec (c : call) : M result :=
  match c with
  | CallError e => do s <- Error_Error e; ret (RString s)
  | CallAcquire => do l <- acquire_context; ret (RContext l)
  end.

(** A sequence of calls, starting in state [σ]. *)
Fixpoint run (cs : list call) : M (list result) :=
  match cs with
  | [] => ret []
  | c :: cs' => do r <- exec c; do rs <- run cs'; ret (r :: rs)
  end.

(** The string a call of [Error()] gives back in state [σ]. *)
Definition Error_string (σ : pkg) (e : Error) : string := (Error_Error e σ).1.

End Package.

Arguments errorMessages {context} _.
Arguments heap {context} _.
Arguments theContext {context} _.
Arguments Error_Error {context} e _.
Arguments Error_string {context} σ e.
Arguments index_errorMessages {context} k _.
Arguments acquire_context {context} _.
Arguments exec {context} c _.
Arguments run {context} cs _.

(** ** Reference notions used in the statements *)

(** The decimal numeral of an integer, as the standard library writes it:
    an optional minus sign, then the digits without leading zeros. *)
Definition decimal (v : Z) : string :=
  DecimalString.NilZero.string_of_int (Z.to_int v).

(** The digit [r] put in front of a numeral. *)
Definition Dn (r : N) (d : Decimal.uint) : Decimal.uint :=
  match r with
  | 0 => Decimal.D0 d | 1 => Decimal.D1 d | 2 => Decimal.D2 d
  | 3 => Decimal.D3 d | 4 => Decimal.D4 d | 5 => Decimal.D5 d
  | 6 => Decimal.D6 d | 7 => Decimal.D7 d | 8 => Decimal.D8 d
  | _ => Decimal.D9 d
  end%N.

(** A byte is printable ASCII: from the space to the tilde. *)
Definition printable (c : ascii) : bool :=
  let n := N_of_ascii c in ((32 <=? n) && (n <=? 126))%N.

(** Every byte of a string passes a test. *)
Fixpoint string_all (P : ascii → bool) (s : string) : bool :=
  match s with
  | EmptyString => true
  | String c s' => P c && string_all P s'
  end.

(** What is left of a string after its first [n] bytes. *)
Definition drop_prefix (n : nat) (s : string) : string :=
  String.substring n (String.length s - n) s.

(** * Facts *)

(** ** The digit loop writes the standard decimal numeral *)

Section Digits.

Ltac digit_cases r H :=
  let Hc := fresh "Hc" in
  assert (Hc : (r = 0 ∨ r = 1 ∨ r = 2 ∨ r = 3 ∨ r = 4 ∨ r = 5 ∨
                r = 6 ∨ r = 7 ∨ r = 8 ∨ r = 9)%N) by lia;
  clear H;
  destruct Hc as [-> | [-> | [-> | [-> | [-> | [-> | [-> | [-> | [-> | ->]]]]]]]]].

Lemma of_lu_Dn r d :
  (r < 10)%N →
  DecimalPos.Unsigned.of_lu (Dn r d) =
  (r + 10 * DecimalPos.Unsigned.of_lu d)%N.
Proof. intros Hr. digit_cases r Hr; reflexivity. Qed.

Lemma string_of_uint_Dn r d :
  (r < 10)%N →
  NilEmpty.string_of_uint (Dn r d) =
  String (digit_byte (Z.of_N r)) (NilEmpty.string_of_uint d).
Proof. intros Hr. digit_cases r Hr; reflexivity. Qed.

Lemma nztail_Dn r d :
  (r < 10)%N → nztail d ≠ Nil → nztail (Dn r d) = Dn r (nztail d).
Proof.
  intros Hr Hd. digit_cases r Hr; try reflexivity.
  simpl. by destruct (nztail d).
Qed.

Lemma Dn_nonnil r d : Dn r d ≠ Nil.
Proof. by destruct r as [|[[[[]|[]|]|[[]|[]|]|]|[[[]|[]|]|[[]|[]|]|]|]]. Qed.

Lemma append_cons (a : ascii) (s1 s2 : string) :
  String a s1 +:+ s2 = String a (s1 +:+ s2).
Proof. reflexivity. Qed.

Lemma append_assoc (s1 s2 s3 : string) :
  (s1 +:+ s2) +:+ s3 = s1 +:+ s2 +:+ s3.
Proof.
  induction s1 as [|a s1 IH]; [done |].
  rewrite !append_cons. by rewrite IH.
Qed.

Lemma string_of_uint_revapp d d' :
  NilEmpty.string_of_uint (revapp d d') =
  NilEmpty.string_of_uint (rev d) +:+ NilEmpty.string_of_uint d'.
Proof.
  revert d'. unfold rev.
  induction d as [|d IH|d IH|d IH|d IH|d IH|d IH|d IH|d IH|d IH|d IH];
    intros d'; simpl revapp; [done | ..];
    rewrite (IH (_ d')), (IH (_ Nil)), append_assoc; done.
Qed.

Lemma append_nil_r (s : string) : s +:+ "" = s.
Proof.
  induction s as [|a s IH]; [done |]. by rewrite append_cons, IH.
Qed.

Lemma of_to_lu n : DecimalPos.Unsigned.of_lu (DecimalPos.Unsigned.to_lu n) = n.
Proof.
  destruct n as [|p]; [done |]. simpl.
  by rewrite <- DecimalPos.Unsigned.of_lu_rev, <- (DecimalPos.Unsigned.of_to p).
Qed.

Lemma to_lu_normal n :
  (0 < n)%N →
  nztail (DecimalPos.Unsigned.to_lu n) ≠ Nil ∧
  nztail (DecimalPos.Unsigned.to_lu n) = DecimalPos.Unsigned.to_lu n.
Proof.
  intros Hn.
  assert (Hnz : nztail (DecimalPos.Unsigned.to_lu n) ≠ Nil).
  { rewrite <- DecimalPos.Unsigned.of_lu_0, of_to_lu. lia. }
  split; [done |].
  pose proof (DecimalPos.Unsigned.to_of_lu (DecimalPos.Unsigned.to_lu n)) as H.
  rewrite of_to_lu in H. unfold lnorm in H.
  by destruct (nztail (DecimalPos.Unsigned.to_lu n)).
Qed.

(** One more digit at the low end of a positive number. *)
Lemma to_lu_step q r :
  (0 < q)%N → (r < 10)%N →
  DecimalPos.Unsigned.to_lu (r + 10 * q) = Dn r (DecimalPos.Unsigned.to_lu q).
Proof.
  intros Hq Hr. destruct (to_lu_normal q Hq) as [Hnz Hnorm].
  rewrite <- (of_to_lu q) at 1.
  rewrite <- (of_lu_Dn r) by done.
  rewrite DecimalPos.Unsigned.to_of_lu. unfold lnorm.
  rewrite nztail_Dn, Hnorm by done.
  pose proof (Dn_nonnil r (DecimalPos.Unsigned.to_lu q)).
  by destruct (Dn r (DecimalPos.Unsigned.to_lu q)).
Qed.

Lemma to_uint_rev_lu n : N.to_uint n = rev (DecimalPos.Unsigned.to_lu n).
Proof. by destruct n. Qed.

Lemma rev_Dn r d : rev (Dn r d) = revapp d (Dn r Nil).
Proof. by destruct r as [|[[[[]|[]|]|[[]|[]|]|]|[[[]|[]|]|[[]|[]|]|]|]]. Qed.

Lemma string_of_to_uint_step q r :
  (0 < q)%N → (r < 10)%N →
  NilEmpty.string_of_uint (N.to_uint (r + 10 * q)) =
  NilEmpty.string_of_uint (N.to_uint q) +:+ String (digit_byte (Z.of_N r)) "".
Proof.
  intros Hq Hr.
  rewrite !to_uint_rev_lu, to_lu_step, rev_Dn by done.
  by rewrite string_of_uint_revapp, string_of_uint_Dn.
Qed.

Lemma string_of_to_uint_digit r :
  (r < 10)%N →
  NilEmpty.string_of_uint (N.to_uint r) =
  String (digits_at ldigits (Z.of_N r)) "".
Proof. intros Hr. digit_cases r Hr; reflexivity. Qed.

(** The loop of the formatter puts the standard numeral of [u] in front of
    what the buffer already holds. *)
Lemma fmt_digits_numeral u buf :
  0 <= u →
  fmt_digits u buf = NilEmpty.string_of_uint (N.to_uint (Z.to_N u)) +:+ buf.
Proof.
  funelim (fmt_digits u buf); intros Hu.
  - assert (Hq : 1 <= u / 10) by (apply Z.div_le_lower_bound; lia).
    pose proof (Z.mod_pos_bound u 10 ltac:(lia)) as Hr.
    rewrite Z.mod_eq in Hr by lia.
    rewrite H by lia.
    replace (Z.to_N u)
      with (Z.to_N (u - u / 10 * 10) + 10 * Z.to_N (u / 10))%N by lia.
    rewrite string_of_to_uint_step by lia.
    by rewrite Z2N.id, append_assoc by lia.
  - rewrite string_of_to_uint_digit by lia.
    by rewrite Z2N.id by lia.
Qed.

Lemma decimal_nonneg v :
  0 <= v → decimal v = NilEmpty.string_of_uint (N.to_uint (Z.to_N v)).
Proof.
  intros Hv. destruct v as [|p|p]; [done | | lia].
  unfold decimal. simpl.
  pose proof (DecimalPos.Unsigned.to_uint_nonnil p).
  by destruct (Pos.to_uint p).
Qed.

Lemma decimal_neg v :
  v < 0 →
  decimal v = String "-" (NilEmpty.string_of_uint (N.to_uint (Z.to_N (- v)))).
Proof.
  intros Hv. destruct v as [|p|p]; [lia | lia |].
  unfold decimal. simpl.
  pose proof (DecimalPos.Unsigned.to_uint_nonnil p).
  by destruct (Pos.to_uint p).
Qed.

(** On every [int] the formatter of [%d] writes the decimal numeral. *)
Lemma fmtInteger_decimal v :
  is_int v → fmtInteger (uint64 v) true = decimal v.
Proof.
  unfold is_int, int_min, int_max, fmtInteger, uint64, int64.
  intros Hv. destruct (decide (0 <= v)) as [Hpos | Hneg].
  - rewrite (Z.mod_small v) by lia. rewrite (Z.mod_small v) by lia.
    replace (v <? 2 ^ 63) with true by lia.
    replace (v <? 0) with false by lia. simpl.
    by rewrite fmt_digits_numeral, append_nil_r, decimal_nonneg.
  - replace (v mod 2 ^ 64) with (v + 2 ^ 64)
      by (apply Z.mod_unique with (-1); lia).
    rewrite (Z.mod_small (v + 2 ^ 64)) by lia.
    replace (v + 2 ^ 64 <? 2 ^ 63) with false by lia.
    replace (v + 2 ^ 64 - 2 ^ 64 <? 0) with true by lia. simpl.
    replace ((- (v + 2 ^ 64)) mod 2 ^ 64) with (- v)
      by (apply Z.mod_unique with (-1); lia).
    by rewrite fmt_digits_numeral, append_nil_r, decimal_neg by lia.
Qed.

End Digits.

(** ** Map literals *)

Section MapLiteral.
Implicit Types (l : list (Z * string)) (k : Z) (v : string).

Lemma map_literal_snoc l k v :
  map_literal (l ++ [(k, v)]) = <[k := v]> (map_literal l).
Proof. unfold map_literal. by rewrite foldl_snoc. Qed.

Lemma map_literal_lookup_None l k :
  map_literal l !! k = None ↔ k ∉ l.*1.
Proof.
  induction l as [|[k' v'] l IH] using rev_ind.
  { split; [intros _; apply not_elem_of_nil | intros _; apply lookup_empty]. }
  rewrite map_literal_snoc, lookup_insert_None, IH, fmap_app, elem_of_app.
  change ([(k', v')].*1) with [k'].
  rewrite list_elem_of_singleton. split.
  - intros [H1 H2] [H | H]; [by apply H1 | by apply H2].
  - intros H. split; intros ?; apply H; [by left | by right].
Qed.

(** Go rejects a map literal with a repeated constant key, so the keys
    are pairwise distinct. *)
Lemma map_literal_lookup_Some l k v :
  NoDup (l.*1) → map_literal l !! k = Some v ↔ (k, v) ∈ l.
Proof.
  induction l as [|[k' v'] l IH] using rev_ind; intros Hnd.
  - split; [intros [=] | by intros ?%elem_of_nil].
  - rewrite fmap_app in Hnd. apply NoDup_app in Hnd as (Hnd & Hfresh & _).
    rewrite map_literal_snoc, lookup_insert_Some, IH by done.
    rewrite elem_of_app, list_elem_of_singleton. split.
    + intros [[-> ->] | [_ ?]]; auto.
    + intros [Hin | [= -> ->]]; [| auto].
      right. split; [| done]. intros ->.
      apply (Hfresh k); [| simpl; apply list_elem_of_singleton; done].
      apply list_elem_of_fmap. by exists (k, v).
Qed.

End MapLiteral.

(** ** The error-message table *)

Lemma errorMessages_keys_NoDup : NoDup (errorMessages_literal.*1).
Proof. by apply (bool_decide_unpack _); vm_compute. Qed.

Lemma errorMessages_values_NoDup : NoDup (errorMessages_literal.*2).
Proof. by apply (bool_decide_unpack _); vm_compute. Qed.

(** No canonical message is empty, and none starts like the synthesized
    string. *)
Lemma errorMessages_values_shape :
  Forall (λ s, s ≠ "" ∧ String.prefix "Error " s = false)
         (errorMessages_literal.*2).
Proof. repeat constructor; done. Qed.

Lemma NoDup_snd_key {A B} (l : list (A * B)) a b s :
  NoDup (l.*2) → (a, s) ∈ l → (b, s) ∈ l → a = b.
Proof.
  assert (Hsnd : ∀ k (l' : list (A * B)), (k, s) ∈ l' → s ∈ l'.*2).
  { intros k l' Hin. apply list_elem_of_fmap. by exists (k, s). }
  induction l as [|[k v] l IH]; csimpl; intros Hnd Ha Hb.
  - by apply elem_of_nil in Ha.
  - apply NoDup_cons in Hnd as [Hnin Hnd].
    apply elem_of_cons in Ha as [Ha | Ha];
      apply elem_of_cons in Hb as [Hb | Hb]; simplify_eq; eauto.
    + destruct Hnin; eauto.
    + destruct Hnin; eauto.
Qed.

(** ** Decimal numerals *)

Lemma decimal_inj a b : decimal a = decimal b → a = b.
Proof.
  assert (Hparse : ∀ v,
    NilZero.int_of_string (decimal v) = Some (Z.to_int v)).
  { intros v. apply NilZero.isi; destruct v as [|p|p]; simpl; try done;
      intros [= Hp]; by apply DecimalPos.Unsigned.to_uint_nonnil in Hp. }
  intros Heq. apply DecimalZ.to_int_inj.
  pose proof (Hparse a) as Ha. rewrite Heq, Hparse in Ha. congruence.
Qed.

Lemma Sprintf_Error_d_decimal e :
  is_int e → Sprintf_Error_d e = "Error " +:+ decimal e.
Proof. intros He. unfold Sprintf_Error_d. by rewrite fmtInteger_decimal. Qed.

Lemma Sprintf_Error_d_prefix e : String.prefix "Error " (Sprintf_Error_d e) = true.
Proof.
  unfold Sprintf_Error_d. generalize (fmtInteger (uint64 e) true).
  by intros [|a s].
Qed.

Lemma Sprintf_Error_d_nonempty e : String.eqb (Sprintf_Error_d e) "" = false.
Proof. reflexivity. Qed.

(** ** Calls into the package *)

Section PackageFacts.
Context {context : Type} (context_zero : context).
Implicit Types (σ : pkg context) (e : Z) (cs : list call).

Local Abbreviation init := (pkg_init context context_zero).

(** [Error()] unfolded: what it returns, and the state it leaves. *)
Lemma Error_Error_eq σ e :
  Error_Error e σ =
  (match errorMessages σ !! e with
   | Some s => if String.eqb s "" then Sprintf_Error_d e else s
   | None => Sprintf_Error_d e
   end, σ).
Proof.
  unfold Error_Error, bind, index_errorMessages, ret.
  destruct (errorMessages σ !! e) as [s|] eqn:Hm; simpl; [| done].
  destruct (String.eqb s ""); [done |]. by rewrite Hm.
Qed.

Lemma Error_Error_state σ e : (Error_Error e σ).2 = σ.
Proof. by rewrite Error_Error_eq. Qed.

Lemma exec_state σ (c : call) : (exec c σ).2 = σ.
Proof.
  destruct c as [e|]; unfold exec, bind, ret; [| done].
  by rewrite Error_Error_eq.
Qed.

Lemma run_state cs σ : (run cs σ).2 = σ.
Proof.
  revert σ. induction cs as [|c cs IH]; intros σ; [done |].
  simpl. unfold bind, ret.
  pose proof (exec_state σ c) as Hc. destruct (exec c σ) as [r σ1].
  pose proof (IH σ1) as Hcs. destruct (run cs σ1) as [rs σ2].
  simpl in *. congruence.
Qed.

Lemma errorMessages_init :
  errorMessages init = map_literal errorMessages_literal.
Proof. reflexivity. Qed.

Lemma Error_string_unlisted σ e :
  errorMessages σ !! e = None → Error_string σ e = Sprintf_Error_d e.
Proof. intros H. unfold Error_string. by rewrite Error_Error_eq, H. Qed.

Lemma Error_Error_listed e s :
  (e, s) ∈ errorMessages_literal → Error_Error e init = (s, init).
Proof.
  intros Hin. rewrite Error_Error_eq, errorMessages_init.
  rewrite (proj2 (map_literal_lookup_Some _ e s errorMessages_keys_NoDup) Hin).
  pose proof errorMessages_values_shape as Hshape.
  rewrite Forall_forall in Hshape.
  destruct (Hshape s) as [Hne _].
  { apply list_elem_of_fmap. by exists (e, s). }
  by apply String.eqb_neq in Hne as ->.
Qed.

Lemma Error_string_listed e s :
  (e, s) ∈ errorMessages_literal → Error_string init e = s.
Proof.
  intros Hin. unfold Error_string. by rewrite (Error_Error_listed e s).
Qed.

(** The twelve failure codes that the table lists get their message. *)
Lemma Error_canonical :
  Forall (λ kv, Error_string init kv.1 = kv.2) errorMessages_literal.
Proof.
  apply Forall_forall. intros [e s] Hin. by apply Error_string_listed.
Qed.

End PackageFacts.

(** ** Constants *)

(** C8: the maximum length of a connection string, [BUFSIZE_CONNSTRING], is
    exactly 1024. *)
Theorem BUFSIZE_CONNSTRING_value : BUFSIZE_CONNSTRING = 1024.
Proof. reflexivity. Qed.

(** C4: the fourteen error-code constants have the values 0, -1, -2, -3, -4,
    -5, -6, -7, -8, -10, -20, -30, -80 and -90, in the order of declaration,
    and no value is used twice. *)
Theorem error_code_values :
  SUCCESS = 0 ∧ EIO = -1 ∧ EINVARG = -2 ∧ EDEVNOTSUPP = -3 ∧
  ENOTSUCHDEV = -4 ∧ EOVFLOW = -5 ∧ ETIMEOUT = -6 ∧ EOPABORTED = -7 ∧
  ENOTIMPL = -8 ∧ ETGRELEASED = -10 ∧ ERFTRANS = -20 ∧ EMFCAUTHFAIL = -30 ∧
  ESOFT = -80 ∧ ECHIP = -90 ∧
  List.length error_codes = 14%nat ∧ NoDup error_codes.
Proof.
  repeat (split; [reflexivity |]).
  by apply (bool_decide_unpack _); vm_compute.
Qed.

(** C5: in each constant group (the 15 property identifiers, the 8
    modulation types, the 4 baud rates) the values strictly increase in the
    order of declaration, every earlier one below every later one, so no two
    are equal. *)
Theorem constant_groups_increasing :
  (List.length Properties.declared = 15%nat ∧
   StronglySorted Z.lt Properties.declared ∧ NoDup Properties.declared) ∧
  (List.length ModulationTypes.declared = 8%nat ∧
   StronglySorted Z.lt ModulationTypes.declared ∧
   NoDup ModulationTypes.declared) ∧
  (List.length BaudRates.declared = 4%nat ∧
   StronglySorted Z.lt BaudRates.declared ∧ NoDup BaudRates.declared).
Proof.
  assert (Hnd : ∀ l : list Z, StronglySorted Z.lt l → NoDup l).
  { induction 1 as [|x l _ IH Hall]; constructor; [| done].
    intros Hin. rewrite Forall_forall in Hall. specialize (Hall x Hin). lia. }
  assert (H1 : StronglySorted Z.lt Properties.declared)
    by (repeat (constructor; try reflexivity)).
  assert (H2 : StronglySorted Z.lt ModulationTypes.declared)
    by (repeat (constructor; try reflexivity)).
  assert (H3 : StronglySorted Z.lt BaudRates.declared)
    by (repeat (constructor; try reflexivity)).
  repeat split; auto.
Qed.

(** ** The error strings *)

Section Claims.
Context {context : Type} (context_zero : context).
Implicit Types (σ : pkg context) (e : Z) (cs : list call).

Local Abbreviation init := (pkg_init context context_zero).

(** [ESOFT] is declared with the other error codes but the table, a replica
    of the wrapped library's, has no entry for it: [Error(ESOFT).Error()]
    takes the documented path for a code the table does not know and is the
    synthesized ["Error -80"]. *)
Theorem Error_ESOFT_synthesized :
  ESOFT ∈ failure_codes ∧
  errorMessages init !! ESOFT = None ∧
  Error_Error ESOFT init = ("Error -80", init).
Proof.
  split; [by apply (bool_decide_unpack _); vm_compute |].
  assert (Hnone : errorMessages init !! ESOFT = None).
  { rewrite errorMessages_init. apply map_literal_lookup_None.
    by apply (bool_decide_unpack _); vm_compute. }
  split; [done |].
  by rewrite Error_Error_eq, Hnone.
Qed.

(** C1, as amended: for each of the twelve failure codes that the table
    lists (the declared failure codes other than [ESOFT]), the table has the
    canonical description and [Error()] returns exactly that string. *)
Theorem Error_listed_failure_codes :
  filter (λ e, e ≠ ESOFT) failure_codes =
    [ EIO; EINVARG; EDEVNOTSUPP; ENOTSUCHDEV; EOVFLOW; ETIMEOUT; EOPABORTED;
      ENOTIMPL; ETGRELEASED; ERFTRANS; EMFCAUTHFAIL; ECHIP ] ∧
  map (λ e, (errorMessages init !! e, Error_Error e init))
    [ EIO; EINVARG; EDEVNOTSUPP; ENOTSUCHDEV; EOVFLOW; ETIMEOUT; EOPABORTED;
      ENOTIMPL; ETGRELEASED; ERFTRANS; EMFCAUTHFAIL; ECHIP ] =
  map (λ s, (Some s, (s, init)))
    [ "Input / Output Error"; "Invalid argument(s)";
      "Not Supported by Device"; "No Such Device"; "Buffer Overflow";
      "Timeout"; "Operation Aborted"; "Not (yet) Implemented";
      "Target Released"; "RF Transmission Error";
      "Mifare Authentication Failed"; "Device's Internal Chip Error" ].
Proof.
  split; [reflexivity |].
  assert (Hlisted : ∀ e s, (e, s) ∈ errorMessages_literal →
            (errorMessages init !! e, Error_Error e init) = (Some s, (s, init))).
  { intros e s Hin. rewrite (Error_Error_listed _ e s) by done. f_equal.
    rewrite errorMessages_init.
    by apply map_literal_lookup_Some; [apply errorMessages_keys_NoDup |]. }
  assert (Hmap : ∀ l : list (Z * string),
            Forall (λ kv, kv ∈ errorMessages_literal) l →
            map (λ e, (errorMessages init !! e, Error_Error e init)) (l.*1) =
            map (λ s, (Some s, (s, init))) (l.*2)).
  { induction 1 as [|[e s] l Hin _ IH]; [done |].
    rewrite !fmap_cons. change ((e, s).1) with e. change ((e, s).2) with s.
    change (map ?f (?x :: ?l')) with (f x :: map f l').
    f_equal; [exact (Hlisted e s Hin) | exact IH]. }
  apply (Hmap
    [ (EIO, "Input / Output Error"); (EINVARG, "Invalid argument(s)");
      (EDEVNOTSUPP, "Not Supported by Device");
      (ENOTSUCHDEV, "No Such Device"); (EOVFLOW, "Buffer Overflow");
      (ETIMEOUT, "Timeout"); (EOPABORTED, "Operation Aborted");
      (ENOTIMPL, "Not (yet) Implemented"); (ETGRELEASED, "Target Released");
      (ERFTRANS, "RF Transmission Error");
      (EMFCAUTHFAIL, "Mifare Authentication Failed");
      (ECHIP, "Device's Internal Chip Error") ]).
  by apply (bool_decide_unpack _); vm_compute.
Qed.

(** C2: [Error()] returns for every [int] and leaves the state as it
    was; for a code without an entry in the table the string returned is
    ["Error "] followed by the decimal numeral of the code. *)
Theorem Error_unlisted σ e :
  is_int e →
  (∃ s, Error_Error e σ = (s, σ)) ∧
  (errorMessages σ !! e = None →
   Error_Error e σ = ("Error " +:+ decimal e, σ)).
Proof.
  intros He. split.
  - rewrite Error_Error_eq. eauto.
  - intros Hnone. by rewrite Error_Error_eq, Hnone, Sprintf_Error_d_decimal.
Qed.

(** C3: [SUCCESS] is 0, a value of type [int], and [Error(SUCCESS).Error()]
    is ["Success"]. *)
Theorem SUCCESS_is_Success :
  SUCCESS = 0 ∧ is_int SUCCESS ∧ Error_Error SUCCESS init = ("Success", init).
Proof.
  split; [done |]. split; [by unfold is_int, int_min, int_max, SUCCESS |].
  apply Error_Error_listed.
  by apply (bool_decide_unpack _); vm_compute.
Qed.

(** C7: a call of [Error()] changes nothing in the package state, the
    table included, and a second call on the same code, right after the
    first or after any other calls, returns the same string. *)
Theorem Error_Error_pure σ e cs :
  (Error_Error e σ).2 = σ ∧
  errorMessages (Error_Error e σ).2 = errorMessages σ ∧
  (Error_Error e (Error_Error e σ).2).1 = (Error_Error e σ).1 ∧
  (Error_Error e (run cs (Error_Error e σ).2).2).1 = (Error_Error e σ).1.
Proof. by rewrite run_state, !Error_Error_state. Qed.

(** C9: whatever the table holds, the string [Error()] returns is not
    empty; when the entry of the code is absent, and also when it is the
    empty string, the string returned is the synthesized one. *)
Theorem Error_string_nonempty σ e :
  String.eqb (Error_string σ e) "" = false ∧
  String.eqb (Sprintf_Error_d e) "" = false ∧
  Error_string (Pkg context (delete e (errorMessages σ))
                    (heap σ) (theContext σ)) e = Sprintf_Error_d e ∧
  Error_string (Pkg context (<[e := ""]> (errorMessages σ))
                    (heap σ) (theContext σ)) e = Sprintf_Error_d e.
Proof.
  unfold Error_string. rewrite !Error_Error_eq. simpl.
  rewrite lookup_delete_eq, lookup_insert_eq.
  split; [| split; [apply (Sprintf_Error_d_nonempty e) | done]].
  destruct (errorMessages σ !! e) as [s|]; [| done].
  by destruct (String.eqb s "") eqn:Hs.
Qed.

(** C10: on the initial table two different [int] codes never get the same
    string from [Error()]. *)
Theorem Error_string_injective a b :
  is_int a → is_int b → a ≠ b →
  Error_string init a ≠ Error_string init b.
Proof.
  intros Ha Hb Hne Heq.
  pose proof errorMessages_values_shape as Hshape.
  rewrite Forall_forall in Hshape.
  assert (Hlisted : ∀ e s, errorMessages init !! e = Some s →
            (e, s) ∈ errorMessages_literal ∧
            Error_string init e = s ∧ String.prefix "Error " s = false).
  { intros e s Hs. rewrite errorMessages_init in Hs.
    apply map_literal_lookup_Some in Hs; [| apply errorMessages_keys_NoDup].
    split; [done |]. split; [by apply Error_string_listed |].
    apply Hshape, list_elem_of_fmap. by exists (e, s). }
  assert (Hunlisted : ∀ e, errorMessages init !! e = None →
            String.prefix "Error " (Error_string init e) = true).
  { intros e He. rewrite Error_string_unlisted by done.
    apply Sprintf_Error_d_prefix. }
  destruct (errorMessages init !! a) as [sa|] eqn:Hma;
    destruct (errorMessages init !! b) as [sb|] eqn:Hmb.
  - destruct (Hlisted a sa Hma) as (Hina & Hsa & _).
    destruct (Hlisted b sb Hmb) as (Hinb & Hsb & _).
    rewrite Hsa, Hsb in Heq. subst sb.
    apply Hne, (NoDup_snd_key errorMessages_literal a b sa); [| done ..].
    apply errorMessages_values_NoDup.
  - destruct (Hlisted a sa Hma) as (_ & Hsa & Hpre).
    specialize (Hunlisted b Hmb). congruence.
  - destruct (Hlisted b sb Hmb) as (_ & Hsb & Hpre).
    specialize (Hunlisted a Hma). congruence.
  - rewrite !Error_string_unlisted, !Sprintf_Error_d_decimal in Heq by done.
    by apply Hne, decimal_inj, (inj (String.append "Error ")).
Qed.

End Claims.

(** ** The statements at concrete codes *)

(** The statement "each of the thirteen declared failure codes has an entry
    in the table, and [Error()] returns it" fails at [ESOFT]. *)
Lemma Error_failure_codes_counterexample :
  ESOFT ∈ failure_codes ∧
  errorMessages (pkg_init unit tt) !! ESOFT = None ∧
  Error_string (pkg_init unit tt) ESOFT = "Error -80" ∧
  ¬ (∀ e, e ∈ failure_codes →
       ∃ s, errorMessages (pkg_init unit tt) !! e = Some s ∧
            Error_string (pkg_init unit tt) e = s).
Proof.
  destruct (Error_ESOFT_synthesized tt) as (Hin & Hnone & Hstr).
  split; [exact Hin |]. split; [exact Hnone |].
  split; [unfold Error_string; by rewrite Hstr |].
  intros Hall. destruct (Hall ESOFT Hin) as (s & Hs & _). congruence.
Qed.

(** The codes the table lists, one by one. *)
Example Error_strings_listed :
  map (Error_string (pkg_init unit tt))
      [SUCCESS; EIO; EINVARG; EDEVNOTSUPP; ENOTSUCHDEV; EOVFLOW; ETIMEOUT;
       EOPABORTED; ENOTIMPL; ETGRELEASED; ERFTRANS; EMFCAUTHFAIL; ECHIP] =
  [ "Success"; "Input / Output Error"; "Invalid argument(s)";
    "Not Supported by Device"; "No Such Device"; "Buffer Overflow";
    "Timeout"; "Operation Aborted"; "Not (yet) Implemented";
    "Target Released"; "RF Transmission Error";
    "Mifare Authentication Failed"; "Device's Internal Chip Error" ].
Proof. vm_compute. reflexivity. Qed.

(** Codes outside the table, the two ends of the [int] range among them. *)
Example Error_strings_unlisted :
  map (Error_string (pkg_init unit tt)) [-999; 42; -11; -9; 1; int_min; int_max] =
  [ "Error -999"; "Error 42"; "Error -11"; "Error -9"; "Error 1";
    "Error -9223372036854775808"; "Error 9223372036854775807" ].
Proof. vm_compute. reflexivity. Qed.

Lemma Error_unlisted_witness :
  is_int (-999) ∧
  errorMessages (pkg_init unit tt) !! (-999) = None ∧
  Error_Error (-999) (pkg_init unit tt) = ("Error -999", pkg_init unit tt).
Proof.
  assert (Hi : is_int (-999)) by (unfold is_int, int_min, int_max; lia).
  assert (Hn : errorMessages (pkg_init unit tt) !! (-999) = None)
    by reflexivity.
  split; [exact Hi |]. split; [exact Hn |].
  exact (proj2 (Error_unlisted (pkg_init unit tt) (-999) Hi) Hn).
Defined.

Lemma Error_string_injective_witness :
  is_int ESOFT ∧ is_int ECHIP ∧ ESOFT ≠ ECHIP ∧
  Error_string (pkg_init unit tt) ESOFT ≠ Error_string (pkg_init unit tt) ECHIP.
Proof.
  assert (H1 : is_int ESOFT) by (unfold is_int, int_min, int_max, ESOFT; lia).
  assert (H2 : is_int ECHIP) by (unfold is_int, int_min, int_max, ECHIP; lia).
  assert (H3 : ESOFT ≠ ECHIP) by discriminate.
  split; [exact H1 |]. split; [exact H2 |]. split; [exact H3 |].
  exact (Error_string_injective tt ESOFT ECHIP H1 H2 H3).
Defined.

(** * Further facts about [Error()] and the constants *)

(** ** Length of the digit loop's output *)

Lemma fmt_digits_length_ge u buf :
  (S (String.length buf) ≤ String.length (fmt_digits u buf))%nat.
Proof.
  funelim (fmt_digits u buf); [| simpl; lia].
  match goal with IH : (S _ ≤ String.length (fmt_digits _ _))%nat |- _ =>
    simpl in IH; lia end.
Qed.

Lemma fmt_digits_length_le u buf :
  ∀ k : nat, 0 <= u < 10 ^ Z.of_nat (S k) →
  (String.length (fmt_digits u buf) ≤ S k + String.length buf)%nat.
Proof.
  funelim (fmt_digits u buf); intros k Hk; [| simpl; lia].
  destruct k as [|k]; [simpl in Hk; lia |].
  rewrite Nat2Z.inj_succ, Z.pow_succ_r in Hk by lia.
  match goal with IH : ∀ k : nat, _ → (_ ≤ _)%nat |- _ =>
    specialize (IH k) end.
  match goal with IH : _ → (_ ≤ _)%nat |- _ =>
    simpl in IH; etrans; [apply IH | lia] end.
  split; [apply Z.div_pos; lia | apply Z.div_lt_upper_bound; lia].
Qed.

Lemma decimal_fmt_digits v :
  decimal v =
  if decide (0 <= v) then fmt_digits v "" else String "-" (fmt_digits (- v) "").
Proof.
  destruct (decide (0 <= v)).
  - by rewrite decimal_nonneg, fmt_digits_numeral, append_nil_r.
  - by rewrite decimal_neg, fmt_digits_numeral, append_nil_r by lia.
Qed.

Lemma decimal_length v :
  is_int v → (1 ≤ String.length (decimal v) ≤ 20)%nat.
Proof.
  unfold is_int, int_min, int_max. intros Hv.
  assert (Hpow : 10 ^ Z.of_nat 19 = 10000000000000000000) by reflexivity.
  rewrite decimal_fmt_digits. destruct (decide (0 <= v)).
  - pose proof (fmt_digits_length_ge v "").
    pose proof (fmt_digits_length_le v "" 18 ltac:(lia)).
    simpl in *. lia.
  - pose proof (fmt_digits_length_ge (- v) "").
    pose proof (fmt_digits_length_le (- v) "" 18 ltac:(lia)).
    simpl in *. lia.
Qed.

Lemma substring_whole (s : string) :
  String.substring 0 (String.length s) s = s.
Proof. induction s as [|c s IH]; [done |]. simpl. by rewrite IH. Qed.

Lemma decimal_parse v :
  NilZero.int_of_string (decimal v) = Some (Z.to_int v).
Proof.
  apply NilZero.isi; destruct v as [|p|p]; simpl; try done;
    intros [= Hp]; by apply DecimalPos.Unsigned.to_uint_nonnil in Hp.
Qed.

(** ** Bytes of the digit loop's output *)

Lemma digit_byte_printable r :
  0 <= r < 10 → printable (digit_byte r) = true.
Proof.
  intros Hr.
  assert (Hc : r = 0 ∨ r = 1 ∨ r = 2 ∨ r = 3 ∨ r = 4 ∨ r = 5 ∨
               r = 6 ∨ r = 7 ∨ r = 8 ∨ r = 9) by lia.
  destruct Hc as [-> | [-> | [-> | [-> | [-> | [-> | [-> | [-> | [-> | ->]]]]]]]]];
    reflexivity.
Qed.

Lemma digits_at_printable r :
  0 <= r < 10 → printable (digits_at ldigits r) = true.
Proof.
  intros Hr.
  assert (Hc : r = 0 ∨ r = 1 ∨ r = 2 ∨ r = 3 ∨ r = 4 ∨ r = 5 ∨
               r = 6 ∨ r = 7 ∨ r = 8 ∨ r = 9) by lia.
  destruct Hc as [-> | [-> | [-> | [-> | [-> | [-> | [-> | [-> | [-> | ->]]]]]]]]];
    reflexivity.
Qed.

Lemma fmt_digits_printable u buf :
  0 <= u → string_all printable buf = true →
  string_all printable (fmt_digits u buf) = true.
Proof.
  funelim (fmt_digits u buf); intros Hu Hbuf.
  - pose proof (Z.mod_pos_bound u 10 ltac:(lia)) as Hr.
    rewrite Z.mod_eq in Hr by lia.
    match goal with IH : _ → _ → string_all _ (fmt_digits _ _) = true |- _ =>
      apply IH end.
    + apply Z.div_pos; lia.
    + simpl. rewrite Hbuf, digit_byte_printable by lia. done.
  - simpl. rewrite Hbuf, digits_at_printable by lia. done.
Qed.

Lemma decimal_printable v : string_all printable (decimal v) = true.
Proof.
  rewrite decimal_fmt_digits. destruct (decide (0 <= v)).
  - by apply fmt_digits_printable.
  - simpl. by rewrite fmt_digits_printable by (done || lia).
Qed.

(** ** What the table gives *)

Lemma errorMessages_values_size :
  Forall (λ s, (7 ≤ String.length s ≤ 28)%nat ∧ string_all printable s = true)
         (errorMessages_literal.*2).
Proof. repeat constructor. Qed.

Section Further.
Context {context : Type} (context_zero : context).
Implicit Types (σ : pkg context) (e : Z).

Local Abbreviation init := (pkg_init context context_zero).

Lemma errorMessages_init_cases e :
  (∃ s, (e, s) ∈ errorMessages_literal ∧ e ∈ errorMessages_literal.*1 ∧
        Error_string init e = s) ∨
  ((e ∉ errorMessages_literal.*1) ∧ errorMessages init !! e = None ∧
   Error_string init e = Sprintf_Error_d e).
Proof.
  destruct (errorMessages init !! e) as [s|] eqn:Hm.
  - left. exists s. rewrite errorMessages_init in Hm.
    apply map_literal_lookup_Some in Hm; [| apply errorMessages_keys_NoDup].
    split; [done |]. split; [| by apply Error_string_listed].
    apply list_elem_of_fmap. by exists (e, s).
  - right. split; [| split; [done | by apply Error_string_unlisted]].
    rewrite errorMessages_init in Hm. by apply map_literal_lookup_None.
Qed.

(** X1: on the initial table the string of [Error()] starts with
    ["Error "] exactly for the codes that are not keys of the table: a
    canonical description is never mistaken for a synthesized one. *)
Theorem Error_prefix_unlisted e :
  String.prefix "Error " (Error_string init e) =
  bool_decide (e ∉ errorMessages_literal.*1).
Proof.
  destruct (errorMessages_init_cases e) as [(s & Hin & Hkey & ->) | (Hkey & _ & ->)].
  - rewrite bool_decide_eq_false_2 by auto.
    pose proof errorMessages_values_shape as Hshape.
    rewrite Forall_forall in Hshape. apply Hshape, list_elem_of_fmap.
    by exists (e, s).
  - rewrite bool_decide_eq_true_2 by done. apply Sprintf_Error_d_prefix.
Qed.

(** X2: for every [int] code the string of [Error()] on the initial table
    has between 7 and 28 bytes, and a synthesized one between 7 and 26.
    The bounds are reached: 7 at [SUCCESS] and at the synthesized string of
    0, 28 at [ECHIP], 26 at the smallest [int]. *)
Theorem Error_string_length e :
  is_int e →
  ((7 ≤ String.length (Error_string init e) ≤ 28)%nat ∧
   (7 ≤ String.length (Sprintf_Error_d e) ≤ 26)%nat) ∧
  String.length (Error_string init SUCCESS) = 7%nat ∧
  String.length (Error_string init ECHIP) = 28%nat ∧
  String.length (Sprintf_Error_d 0) = 7%nat ∧
  String.length (Sprintf_Error_d int_min) = 26%nat.
Proof.
  intros He.
  split; [| by rewrite (Error_string_listed _ SUCCESS "Success"),
               (Error_string_listed _ ECHIP "Device's Internal Chip Error")
              by (by apply (bool_decide_unpack _); vm_compute)].
  assert (Hsyn : (7 ≤ String.length (Sprintf_Error_d e) ≤ 26)%nat).
  { rewrite Sprintf_Error_d_decimal by done.
    pose proof (decimal_length e He).
    change (String.length ("Error " +:+ decimal e))
      with (6 + String.length (decimal e))%nat. lia. }
  split; [| done].
  destruct (errorMessages_init_cases e) as [(s & Hin & _ & ->) | (_ & _ & ->)];
    [| lia].
  pose proof errorMessages_values_size as Hsize.
  rewrite Forall_forall in Hsize. apply Hsize, list_elem_of_fmap.
  by exists (e, s).
Qed.

(** X3: when an [int] code has no entry in the table, the text after the
    six bytes ["Error "] of the string of [Error()] reads back, as a decimal
    numeral, to the code. *)
Theorem Error_fallback_reads_back σ e :
  is_int e → errorMessages σ !! e = None →
  Z.of_int <$> NilZero.int_of_string (drop_prefix 6 (Error_string σ e)) =
  Some e.
Proof.
  intros He Hnone.
  rewrite Error_string_unlisted, Sprintf_Error_d_decimal by done.
  unfold drop_prefix.
  change (String.length ("Error " +:+ decimal e))
    with (6 + String.length (decimal e))%nat.
  replace (6 + String.length (decimal e) - 6)%nat
    with (String.length (decimal e)) by lia.
  change (String.substring 6 ?n ("Error " +:+ decimal e))
    with (String.substring 0 n (decimal e)).
  rewrite substring_whole, decimal_parse. simpl.
  by rewrite DecimalZ.of_to.
Qed.

(** X4: for every [int] code the string of [Error()] on the initial table
    consists of printable ASCII bytes only. *)
Theorem Error_string_printable e :
  is_int e → string_all printable (Error_string init e) = true.
Proof.
  intros He.
  destruct (errorMessages_init_cases e) as [(s & Hin & _ & ->) | (_ & _ & ->)].
  - pose proof errorMessages_values_size as Hsize.
    rewrite Forall_forall in Hsize. apply Hsize, list_elem_of_fmap.
    by exists (e, s).
  - rewrite Sprintf_Error_d_decimal by done.
    change (string_all printable ("Error " +:+ decimal e))
      with (string_all printable (decimal e)).
    apply decimal_printable.
Qed.

(** X5: the keys of the initial table are exactly the declared error codes
    other than [ESOFT]: thirteen keys, none outside the error-code block. *)
Theorem errorMessages_keys_declared :
  dom (errorMessages init) = list_to_set error_codes ∖ {[ESOFT]} ∧
  size (errorMessages init) = 13%nat.
Proof.
  split; [| reflexivity].
  apply set_eq. intros e.
  rewrite elem_of_dom, elem_of_difference, elem_of_list_to_set,
    not_elem_of_singleton.
  rewrite <- not_eq_None_Some, errorMessages_init, map_literal_lookup_None.
  assert (Hkeys : ∀ k, k ∈ errorMessages_literal.*1 ↔
                       k ∈ error_codes ∧ k ≠ ESOFT).
  { intros k. unfold error_codes. simpl.
    rewrite !elem_of_cons, !elem_of_nil.
    unfold SUCCESS, EIO, EINVARG, EDEVNOTSUPP, ENOTSUCHDEV, EOVFLOW, ETIMEOUT,
      EOPABORTED, ENOTIMPL, ETGRELEASED, ERFTRANS, EMFCAUTHFAIL, ESOFT, ECHIP.
    lia. }
  rewrite <- Hkeys. split; [apply dec_stable | auto].
Qed.

End Further.

(** X6: the constants of each group are consecutive integers in the order
    of declaration: the properties and the modes count from 0, the
    modulation types and the baud rates from 1. *)
Theorem constant_group_values :
  Properties.declared = seqZ 0 15 ∧
  ModulationTypes.declared = seqZ 1 8 ∧
  BaudRates.declared = seqZ 1 4 ∧
  [Modes.TARGET; Modes.INITIATOR] = seqZ 0 2.
Proof. repeat split. Qed.

Lemma Error_string_length_witness :
  is_int int_min ∧
  (7 ≤ String.length (Error_string (pkg_init unit tt) int_min) ≤ 28)%nat ∧
  (7 ≤ String.length (Sprintf_Error_d int_min) ≤ 26)%nat ∧
  String.length (Error_string (pkg_init unit tt) int_min) = 26%nat.
Proof.
  assert (Hi : is_int int_min) by (unfold is_int, int_min, int_max; lia).
  split; [exact Hi |].
  destruct (Error_string_length tt int_min Hi) as [[H1 H2] (_ & _ & _ & H3)].
  split; [exact H1 |]. split; [exact H2 |]. exact H3.
Defined.

Lemma Error_fallback_reads_back_witness :
  is_int (-11) ∧
  errorMessages (pkg_init unit tt) !! (-11) = None ∧
  Z.of_int <$>
    NilZero.int_of_string
      (drop_prefix 6 (Error_string (pkg_init unit tt) (-11))) = Some (-11).
Proof.
  assert (Hi : is_int (-11)) by (unfold is_int, int_min, int_max; lia).
  assert (Hn : errorMessages (pkg_init unit tt) !! (-11) = None)
    by reflexivity.
  split; [exact Hi |]. split; [exact Hn |].
  exact (Error_fallback_reads_back (pkg_init unit tt) (-11) Hi Hn).
Defined.

Lemma Error_string_printable_witness :
  is_int 42 ∧
  string_all printable (Error_string (pkg_init unit tt) 42) = true.
Proof.
  assert (Hi : is_int 42) by (unfold is_int, int_min, int_max; lia).
  split; [exact Hi |].
  exact (Error_string_printable tt 42 Hi).
Defined.
